(** * Card viewer components: mana-cost tokenizer, symbol styling, image lifecycle

    A shallow embedding of [src/components/CardBasicInfo.tsx] and
    [src/components/CardImageViewer.tsx].

    - JavaScript strings are [string]s, one [ascii] per code unit; the two
      regular expressions of the source only compare code units with
      [{], [}] and the digits, so nothing depends on the width of a unit.
    - A regular expression literal is a list of [node]s run by a
      backtracking matcher; [exec] follows RegExpBuiltinExec, [lastIndex]
      included.
    - The [while] loop of [parseManaSymbols] takes fuel and returns [None]
      when it runs out; that it never does is a theorem.
    - A component instance is its props and its two [useState] cells; the
      handlers and a re-render are state transformers. *)

From Stdlib Require Import String Ascii List Arith Bool Lia.
From Stdlib Require Import Decimal DecimalNat DecimalString.
Import ListNotations.
Local Open Scope string_scope.

(** ** Strings as the source uses them *)

Module Str.

Fixpoint drop (n : nat) (s : string) : string :=
  match n, s with
  | 0, _ => s
  | S _, EmptyString => EmptyString
  | S n', String _ s' => drop n' s'
  end.

(** [mem c s]: the code unit [c] occurs in [s]. *)
Fixpoint mem (c : ascii) (s : string) : bool :=
  match s with
  | EmptyString => false
  | String d s' => Ascii.eqb d c || mem c s'
  end.

End Str.

(** ** JavaScript values that reach the two components *)

Module Js.

(** A value of static type [string] that a caller may still leave absent. *)
Inductive maybeString : Type :=
| Undefined
| Null
| Str (s : string).

(** ToBoolean: [undefined], [null] and the empty string are falsy. *)
Definition truthy (v : maybeString) : bool :=
  match v with
  | Undefined | Null => false
  | Str s => negb (String.eqb s "")
  end.

(** [a || b] on optional strings: [a] when truthy, else [b] whatever it is. *)
Definition or (a b : option string) : option string :=
  match a with
  | Some s => if String.eqb s "" then b else a
  | None => b
  end.

(** What a property read or a function of the components can return: a
    string, [undefined], or an object or function of the host, known by the
    name of the property that holds it. *)
Inductive value : Type :=
| VUndefined
| VString (s : string)
| VObject (name : string).

Definition truthyValue (v : value) : bool :=
  match v with
  | VUndefined => false
  | VString s => negb (String.eqb s "")
  | VObject _ => true
  end.

Definition orValue (a b : value) : value :=
  if truthyValue a then a else b.

(** The properties every object literal inherits from [Object.prototype]
    (ECMAScript, Annex B included); each holds a function, and [__proto__]
    reads as the prototype object itself. *)
Definition objectPrototype : list string :=
  ["constructor"; "__proto__"; "hasOwnProperty"; "isPrototypeOf";
   "propertyIsEnumerable"; "toLocaleString"; "toString"; "valueOf";
   "__defineGetter__"; "__defineSetter__";
   "__lookupGetter__"; "__lookupSetter__"].

Fixpoint assoc (own : list (string * string)) (key : string)
    : option string :=
  match own with
  | [] => None
  | (k, v) :: own' => if String.eqb k key then Some v else assoc own' key
  end.

Definition inherited (key : string) : bool :=
  existsb (String.eqb key) objectPrototype.

(** [obj[key]] for an object literal with the string-valued own properties
    [own]: the own property, else the one found up the prototype chain,
    else [undefined]. *)
Definition getProperty (own : list (string * string)) (key : string)
    : value :=
  match assoc own key with
  | Some v => VString v
  | None => if inherited key then VObject key else VUndefined
  end.

End Js.

(** ** Regular expressions *)

Module RegExp.

Inductive charset : Type :=
| Lit (c : ascii)        (* an escaped or plain character, as in \{ *)
| NotLit (c : ascii)     (* a negated one-character class, as in [^}] *)
| Digit.                 (* \d, no unicode flag: 0 to 9 *)

Definition isDigit (c : ascii) : bool :=
  let n := nat_of_ascii c in Nat.leb 48 n && Nat.leb n 57.

Definition accepts (cs : charset) (c : ascii) : bool :=
  match cs with
  | Lit d => Ascii.eqb c d
  | NotLit d => negb (Ascii.eqb c d)
  | Digit => isDigit c
  end.

(** [Plus cap cs] is the greedy [cs+]; [cap] says that it is the body of
    capture group 1. *)
Inductive node : Type :=
| Bol
| Eol
| Chr (cs : charset)
| Plus (cap : bool) (cs : charset).

(** Greedy one-or-more with backtracking: take a character, try to take
    more, and only when that fails hand over to the continuation [k]. The
    result is the text of group 1 and the unread rest of the input. *)
Fixpoint matchPlus (cap : bool) (cs : charset)
    (k : string -> option (string * string)) (s : string)
    : option (string * string) :=
  match s with
  | EmptyString => None
  | String c s' =>
      if accepts cs c then
        match matchPlus cap cs k s' with
        | Some (g, r) => Some (if cap then String c g else g, r)
        | None =>
            match k s' with
            | Some (g, r) => Some (if cap then String c g else g, r)
            | None => None
            end
        end
      else None
  end.

(** Match the pattern [p] at the head of [s]; [atStart] says that the head
    of [s] is index 0 of the whole input (for [^], no multiline flag). *)
Fixpoint matchHere (p : list node) (atStart : bool) (s : string)
    : option (string * string) :=
  match p with
  | [] => Some ("", s)
  | Bol :: p' => if atStart then matchHere p' atStart s else None
  | Eol :: p' =>
      match s with
      | EmptyString => matchHere p' atStart s
      | String _ _ => None
      end
  | Chr cs :: p' =>
      match s with
      | EmptyString => None
      | String c s' => if accepts cs c then matchHere p' false s' else None
      end
  | Plus cap cs :: p' => matchPlus cap cs (matchHere p' false) s
  end.

(** The leftmost match at or after the head of [s]: offset of its start,
    group 1, unread rest. *)
Fixpoint search (p : list node) (atStart : bool) (s : string)
    : option (nat * string * string) :=
  match matchHere p atStart s with
  | Some (g, r) => Some (0, g, r)
  | None =>
      match s with
      | EmptyString => None
      | String _ s' =>
          match search p false s' with
          | Some (i, g, r) => Some (S i, g, r)
          | None => None
          end
      end
  end.

Record t : Type := mk {
  source : list node;
  global : bool;
  lastIndex : nat
}.

Record matchResult : Type := mkMatch {
  index : nat;
  group1 : string
}.

Definition setLastIndex (re : t) (i : nat) : t :=
  mk (source re) (global re) i.

(** [re.exec(s)]: the match or [null], and the regular expression with its
    [lastIndex] updated. *)
Definition exec (re : t) (s : string) : option matchResult * t :=
  let start := if global re then lastIndex re else 0 in
  if Nat.ltb (String.length s) start
  then (None, if global re then setLastIndex re 0 else re)
  else
    match search (source re) (Nat.eqb start 0) (Str.drop start s) with
    | Some (i, g, r) =>
        (Some (mkMatch (start + i) g),
         if global re
         then setLastIndex re (String.length s - String.length r)
         else re)
    | None => (None, if global re then setLastIndex re 0 else re)
    end.

Definition test (re : t) (s : string) : bool :=
  match fst (exec re s) with
  | Some _ => true
  | None => false
  end.

End RegExp.

(** ** CardBasicInfo.tsx *)

Module CardBasicInfo.

Import RegExp.

(** [/\{([^}]+)\}/g] *)
Definition symbolPattern : list node :=
  [Chr (Lit "{"); Plus true (NotLit "}"); Chr (Lit "}")].

Definition symbolRegex : RegExp.t := RegExp.mk symbolPattern true 0.

(** The loop [while ((match = symbolRegex.exec(manaCost)) !== null)]. *)
Fixpoint whileExec (fuel : nat) (re : RegExp.t) (manaCost : string)
    (symbols : list string) : option (list string) :=
  match fuel with
  | 0 => None
  | S fuel' =>
      match exec re manaCost with
      | (Some m, re') => whileExec fuel' re' manaCost (symbols ++ [group1 m])
      | (None, _) => Some symbols
      end
  end.

Definition parseManaSymbols (manaCost : Js.maybeString)
    : option (list string) :=
  if negb (Js.truthy manaCost) then Some []
  else
    match manaCost with
    | Js.Str s => whileExec (S (String.length s)) symbolRegex s []
    | Js.Undefined | Js.Null => Some []   (* falsy: returned above *)
    end.

Definition colorMap : list (string * string) :=
  [("W", "bg-yellow-50 text-yellow-800 border-yellow-300");
   ("U", "bg-blue-100 text-blue-800 border-blue-300");
   ("B", "bg-gray-800 text-white border-gray-900");
   ("R", "bg-red-100 text-red-800 border-red-300");
   ("G", "bg-green-100 text-green-800 border-green-300");
   ("C", "bg-gray-300 text-gray-700 border-gray-400")].

(** [/^\d+$/] *)
Definition digitsRegex : RegExp.t :=
  RegExp.mk [Bol; Plus false Digit; Eol] false 0.

Definition getManaSymbolColor (symbol : string) : Js.value :=
  if test digitsRegex symbol
  then Js.VString "bg-gray-200 text-gray-700 border-gray-300"
  else Js.orValue (Js.getProperty colorMap symbol)
                  (Js.VString "bg-gray-200 text-gray-700 border-gray-300").

End CardBasicInfo.

(** ** CardImageViewer.tsx *)

Module CardImageViewer.

Record ImageUrls : Type := mkImageUrls {
  large : option string;
  normal : option string
}.

(** Modelled from the spec: the [Card] type of [src/types/card], which is
    imported by both components and is not among the sources; these are the
    fields the image viewer reads, each optional one as [option]. *)
Record Card : Type := mkCard {
  name : string;
  imageUrls : option ImageUrls;
  imageUrl : option string
}.

(** [card.imageUrls?.f] *)
Definition optionalChain (card : Card) (f : ImageUrls -> option string)
    : option string :=
  match imageUrls card with
  | Some u => f u
  | None => None
  end.

(** [const imageUrl = card.imageUrls?.large || card.imageUrls?.normal ||
    card.imageUrl] *)
Definition selectImageUrl (card : Card) : option string :=
  Js.or (Js.or (optionalChain card large) (optionalChain card normal))
        (imageUrl card).

(** The two [useState] cells of one component instance. *)
Record hooks : Type := mkHooks {
  imageError : bool;
  imageLoaded : bool
}.

(** [useState(false)] twice: the initial value is used at mount only. *)
Definition initialHooks : hooks := mkHooks false false.

Definition handleImageError (h : hooks) : hooks :=
  mkHooks true (imageLoaded h).

Definition handleImageLoad (h : hooks) : hooks :=
  mkHooks (imageError h) true.

(** What the component returns inside its root [div]: the [Image] element,
    with the skeleton beside it while nothing is loaded, or the fallback. *)
Inductive view : Type :=
| ImageView (skeleton : bool) (src : option string) (alt : string)
            (className : string)
| FallbackView (icon : string) (caption : string) (notice : string).

Definition jokerIcon : string := "🃏".

Definition render (card : Card) (h : hooks) : view :=
  if negb (imageError h) then
    ImageView (negb (imageLoaded h))
              (selectImageUrl card)
              (name card ++ " card image")
              ("rounded-lg shadow-lg transition-opacity duration-300 " ++
               (if imageLoaded h then "opacity-100" else "opacity-0"))
  else
    FallbackView jokerIcon (name card) "Image not available".

(** A mounted instance: its current props and its hook cells. *)
Record instance : Type := mkInstance {
  props : Card;
  cells : hooks
}.

Definition mount (card : Card) : instance := mkInstance card initialHooks.

(** What can happen to a mounted instance: the host fires [onLoad] or
    [onError] of the [Image], or the parent renders it again with a card. *)
Inductive event : Type :=
| OnLoad
| OnError
| Rerender (card : Card).

(** A re-render runs the function again with the new props; [useState]
    then returns the cells as they are. *)
Definition step (i : instance) (e : event) : instance :=
  match e with
  | OnLoad => mkInstance (props i) (handleImageLoad (cells i))
  | OnError => mkInstance (props i) (handleImageError (cells i))
  | Rerender card => mkInstance card (cells i)
  end.

Definition run (i : instance) (es : list event) : instance :=
  fold_left step es i.

Definition display (i : instance) : view := render (props i) (cells i).


End CardImageViewer.

(** ** CardBasicInfo.tsx: the badge classes and the component *)

Module CardBasicInfoView.

Import CardBasicInfo.

(** Modelled from the spec: the [CardRarity] type of [src/types/card], a
    union of four string literals; they are the keys of [rarityColorMap],
    which is a [Record<CardRarity, string>]. *)
Inductive CardRarity : Type := common | uncommon | rare | mythic.

(** The string a rarity is at run time. *)
Definition rarityString (rarity : CardRarity) : string :=
  match rarity with
  | common => "common"
  | uncommon => "uncommon"
  | rare => "rare"
  | mythic => "mythic"
  end.

Definition baseClasses : string :=
  "inline-flex items-center px-3 py-1 rounded-full text-xs font-semibold uppercase tracking-wide".

Definition rarityColorMap (rarity : CardRarity) : string :=
  match rarity with
  | common => "bg-gray-200 text-gray-800"
  | uncommon => "bg-gray-400 text-white"
  | rare => "bg-yellow-400 text-yellow-900"
  | mythic => "bg-orange-500 text-white"
  end.

Definition getRarityClasses (rarity : CardRarity) : string :=
  baseClasses ++ " " ++ rarityColorMap rarity ++ " " ++ rarityString rarity.

(** Modelled from the spec: the fields of the [Card] type of
    [src/types/card] that this component reads; the optional ones, and
    [manaCost], which the parser guards, may be absent. *)
Record Card : Type := mkCard {
  name : string;
  manaCost : Js.maybeString;
  type : string;
  rarity : CardRarity;
  setCode : string;
  setName : string;
  text : option string;
  power : option string;
  toughness : option string;
  loyalty : option string
}.

(** ToBoolean of an optional string. *)
Definition truthy (v : option string) : bool :=
  match v with
  | Some s => negb (String.eqb s "")
  | None => false
  end.

(** A number inside a template literal: its decimal digits. *)
Definition numberToString (n : nat) : string :=
  NilEmpty.string_of_uint (Nat.to_uint n).

(** [xs.map((x, index) => f(x, index))] *)
Fixpoint mapFrom {A B : Type} (index : nat) (f : A -> nat -> B)
    (xs : list A) : list B :=
  match xs with
  | [] => []
  | x :: xs' => f x index :: mapFrom (S index) f xs'
  end.

Definition mapWithIndex {A B : Type} (f : A -> nat -> B) (xs : list A)
    : list B :=
  mapFrom 0 f xs.

(** One [span] of the mana cost row. Its class is a fixed prefix followed by
    what [getManaSymbolColor] returned, kept as the value it is. *)
Record ManaBadge : Type := mkBadge {
  key : string;
  color : Js.value;
  title : string;
  label : string
}.

Definition manaBadge (symbol : string) (index : nat) : ManaBadge :=
  mkBadge (symbol ++ "-" ++ numberToString index)
          (getManaSymbolColor symbol)
          symbol
          symbol.

Inductive ManaRow : Type :=
| Badges (spans : list ManaBadge)
| NoCost.

(** [manaSymbols.length > 0 ? manaSymbols.map(...) : <span>No cost</span>] *)
Definition manaRow (manaSymbols : list string) : ManaRow :=
  if Nat.ltb 0 (List.length manaSymbols)
  then Badges (mapWithIndex manaBadge manaSymbols)
  else NoCost.

(** The last block: the power and toughness line and the loyalty line,
    each present or not. *)
Record StatsRow : Type := mkStats {
  powerToughness : option string;
  loyaltyLine : option string
}.

(** [{(card.power || card.loyalty) && (...)}], with
    [{card.power && card.toughness && (...)}] and [{card.loyalty && (...)}]
    inside. A falsy operand renders nothing. *)
Definition statsRow (card : Card) : option StatsRow :=
  if truthy (Js.or (power card) (loyalty card)) then
    Some (mkStats
      (match power card, toughness card with
       | Some p, Some t =>
           if truthy (power card) && truthy (toughness card)
           then Some (p ++ "/" ++ t) else None
       | _, _ => None
       end)
      (match loyalty card with
       | Some l => if truthy (loyalty card) then Some l else None
       | None => None
       end))
  else None.

(** [{card.text && (...)}] *)
Definition textBlock (card : Card) : option string :=
  match text card with
  | Some s => if truthy (text card) then Some s else None
  | None => None
  end.

(** What the component renders, by test id and block. *)
Record View : Type := mkView {
  cardName : string;
  manaCostRow : ManaRow;
  cardType : string;
  setSymbolTitle : string;
  setCodeText : string;
  setNameText : string;
  rarityBadgeClass : string;
  rarityBadgeText : string;
  cardText : option string;
  stats : option StatsRow
}.

(** The component; [None] only if the loop of the parser ran out of
    fuel. *)
Definition CardBasicInfo (card : Card) : option View :=
  match parseManaSymbols (manaCost card) with
  | Some manaSymbols =>
      Some (mkView (name card)
                   (manaRow manaSymbols)
                   (type card)
                   ("Set: " ++ setName card)
                   (setCode card)
                   (setName card)
                   (getRarityClasses (rarity card))
                   (rarityString (rarity card))
                   (textBlock card)
                   (statsRow card))
  | None => None
  end.

End CardBasicInfoView.

(** ** The vocabulary of the specification *)

Module Spec.

Import CardImageViewer.

(** The three states of the image loader, read off the two cells the way
    [render] reads them: the error cell is tested first. *)
Inductive ImageLoadState : Type := Loading | Loaded | Failed.

Definition loadState (h : hooks) : ImageLoadState :=
  if imageError h then Failed
  else if imageLoaded h then Loaded
  else Loading.

(** A symbol starts at the head of [s]: an opening brace, a non-empty text
    [t] free of closing braces, a closing brace, then [post]. *)
Definition startsSymbol (s t post : string) : Prop :=
  s = String "{" (t ++ String "}" post) /\ t <> "" /\ Str.mem "}" t = false.

(** The left-to-right scan: where a symbol starts, take its text and go on
    after its closing brace; elsewhere skip one character. *)
Inductive Scan : string -> list string -> Prop :=
| Scan_end : Scan "" []
| Scan_skip c s ts :
    (forall t post, ~ startsSymbol (String c s) t post) ->
    Scan s ts -> Scan (String c s) ts
| Scan_take s t post ts :
    startsSymbol s t post -> Scan post ts -> Scan s (t :: ts).

(** The tokenizer as the specification words it: a token for each brace
    pair whose interior holds no further brace. [cur] is the text read
    since the last opening brace, if one is open. *)
Fixpoint tokenizeFrom (cur : option string) (s : string) : list string :=
  match s with
  | EmptyString => []
  | String c s' =>
      if Ascii.eqb c "{" then tokenizeFrom (Some "") s'
      else if Ascii.eqb c "}" then
        match cur with
        | Some t => t :: tokenizeFrom None s'
        | None => tokenizeFrom None s'
        end
      else
        tokenizeFrom (option_map (fun t => t ++ String c "") cur) s'
  end.

Definition tokenize_spec (s : string) : list string := tokenizeFrom None s.

(** An opening brace directly followed by a closing one occurs in [s]. *)
Fixpoint hasEmptyPair (s : string) : bool :=
  match s with
  | EmptyString => false
  | String c s' =>
      (Ascii.eqb c "{" &&
       match s' with
       | String d _ => Ascii.eqb d "}"
       | EmptyString => false
       end)
      || hasEmptyPair s'
  end.

(** A token of one or more decimal digits. *)
Fixpoint allDigits (s : string) : bool :=
  match s with
  | EmptyString => true
  | String c s' => RegExp.isDigit c && allDigits s'
  end.

Definition isNumeric (s : string) : bool :=
  negb (String.eqb s "") && allDigits s.

(** The class strings of the Numeric and of the Unknown presentation. *)
Definition numericClasses : string :=
  "bg-gray-200 text-gray-700 border-gray-300".

Definition defaultClasses : string :=
  "bg-gray-200 text-gray-700 border-gray-300".

(** The first candidate that is present and not empty. *)
Fixpoint firstNonEmpty (candidates : list (option string)) : option string :=
  match candidates with
  | [] => None
  | Some u :: rest => if String.eqb u "" then firstNonEmpty rest else Some u
  | None :: rest => firstNonEmpty rest
  end.

(** The candidates of a card in the order of preference. *)
Definition candidates (card : Card) : list (option string) :=
  [optionalChain card large; optionalChain card normal; imageUrl card].

(** The fallback presentation of a card. *)
Definition fallbackOf (card : Card) : view :=
  FallbackView jokerIcon (name card) "Image not available".

(** Two cards with different sources, to run the loader on. *)
Definition cardA : Card :=
  mkCard "Island" (Some (mkImageUrls (Some "a-large.jpg") None)) None.

Definition cardB : Card :=
  mkCard "Forest" (Some (mkImageUrls (Some "b-large.jpg") None)) None.

End Spec.

(** ** Vocabulary of the proofs *)

(** [suffix r s]: [r] is what is left of [s] after some characters. *)
Inductive suffix : string -> string -> Prop :=
| suffix_refl s : suffix s s
| suffix_cons c r s : suffix r s -> suffix r (String c s).

#[local] Hint Constructors suffix : core.

(** Split at the first closing brace. *)
Fixpoint splitAtClose (s : string) : option (string * string) :=
  match s with
  | EmptyString => None
  | String c s' =>
      if Ascii.eqb c "}" then Some ("", s')
      else
        match splitAtClose s' with
        | Some (g, r) => Some (String c g, r)
        | None => None
        end
  end.

(** [s] is empty or ends with a closing brace. *)
Fixpoint endsClosed (s : string) : bool :=
  match s with
  | EmptyString => true
  | String c s' =>
      match s' with
      | EmptyString => Ascii.eqb c "}"
      | String _ _ => endsClosed s'
      end
  end.

(** The mana cost notation of a list of symbols: each between braces. *)
Fixpoint bracedSymbols (ts : list string) : string :=
  match ts with
  | [] => ""
  | t :: ts' => String "{" (t ++ String "}" (bracedSymbols ts'))
  end.

(** A symbol that the notation can carry: not empty, no closing brace. *)
Definition isSymbol (t : string) : Prop :=
  t <> "" /\ Str.mem "}" t = false.




(** A card to run the component on: a repeated symbol and one with a
    dash, power without toughness. *)
Definition sampleCard : CardBasicInfoView.Card :=
  CardBasicInfoView.mkCard "Sample" (Js.Str "{U}{U}{1-1}") "Creature"
    CardBasicInfoView.rare "SET" "Sample Set" None (Some "0") None None.

Example parse_2UU :
  CardBasicInfo.parseManaSymbols (Js.Str "{2}{U}{U}") = Some ["2"; "U"; "U"].
Proof. reflexivity. Qed.

Example parse_XRY :
  CardBasicInfo.parseManaSymbols (Js.Str "X{R}Y") = Some ["R"].
Proof. reflexivity. Qed.

Example spec_2UU : Spec.tokenize_spec "{2}{U}{U}" = ["2"; "U"; "U"].
Proof. reflexivity. Qed.

(** * Facts *)

(** ** Suffixes and [drop] *)

Lemma suffix_length r s : suffix r s -> String.length r <= String.length s.
Proof. induction 1; simpl; lia. Qed.

Lemma suffix_trans r s u : suffix r s -> suffix s u -> suffix r u.
Proof. intros Hrs Hsu. induction Hsu; auto. Qed.

Lemma suffix_drop r s :
  suffix r s -> Str.drop (String.length s - String.length r) s = r.
Proof.
  induction 1 as [s | c r s Hrs IH].
  - rewrite Nat.sub_diag. destruct s; reflexivity.
  - apply suffix_length in Hrs. simpl String.length.
    replace (S (String.length s) - String.length r)
      with (S (String.length s - String.length r)) by lia.
    exact IH.
Qed.

Lemma drop_suffix n s : suffix (Str.drop n s) s.
Proof.
  revert s. induction n as [| n IH]; intros s.
  - destruct s; simpl; auto.
  - destruct s as [| c s]; simpl; auto.
Qed.

Lemma drop_length n s :
  n <= String.length s -> String.length (Str.drop n s) = String.length s - n.
Proof.
  revert s. induction n as [| n IH]; intros s Hn.
  - destruct s; simpl; lia.
  - destruct s as [| c s]; simpl in *; [lia | apply IH; lia].
Qed.

(** ** What the symbol pattern matches *)

Section SymbolPattern.

Import RegExp CardBasicInfo Spec.

Lemma splitAtClose_spec s g r :
  splitAtClose s = Some (g, r) <->
  s = g ++ String "}" r /\ Str.mem "}" g = false.
Proof.
  revert g r. induction s as [| c s IH]; intros g r; simpl.
  - split; [discriminate |].
    intros [H _]. destruct g; discriminate.
  - destruct (Ascii.eqb_spec c "}") as [-> | Hc].
    + split.
      * intros [= <- <-]. auto.
      * intros [H Hg]. destruct g as [| d g]; simpl in *.
        -- injection H as ->. reflexivity.
        -- injection H as <- _. rewrite Ascii.eqb_refl in Hg. discriminate.
    + destruct (splitAtClose s) as [[g' r'] |] eqn:E.
      * destruct (proj1 (IH g' r') eq_refl) as [-> Hg'].
        split.
        -- intros [= <- <-]. simpl. split; [reflexivity |].
           apply Ascii.eqb_neq in Hc. rewrite Hc. exact Hg'.
        -- intros [H Hg]. destruct g as [| d g]; simpl in *.
           ++ injection H as -> _. contradiction.
           ++ injection H as <- H. apply orb_false_iff in Hg as [_ Hg].
              assert (E' : Some (g', r') = Some (g, r))
                by (apply IH; auto).
              injection E' as -> ->. reflexivity.
      * split; [discriminate |].
        intros [H Hg]. destruct g as [| d g]; simpl in *.
        -- injection H as -> _. contradiction.
        -- injection H as <- H. apply orb_false_iff in Hg as [_ Hg].
           assert (E' : None = Some (g, r)) by (apply IH; auto).
           discriminate.
Qed.

Lemma splitAtClose_suffix s g r :
  splitAtClose s = Some (g, r) ->
  suffix r s /\ String.length r < String.length s.
Proof.
  revert g r. induction s as [| c s IH]; intros g r; simpl; [discriminate |].
  destruct (Ascii.eqb c "}").
  - intros [= <- <-]. split; [auto | lia].
  - destruct (splitAtClose s) as [[g' r'] |]; [| discriminate].
    intros [= <- <-]. destruct (IH g' r' eq_refl). split; [auto | lia].
Qed.

(** The greedy [[^}]+] followed by [\}] stops at the first closing brace
    and needs at least one character before it. *)
Lemma matchPlus_symbol s :
  matchPlus true (NotLit "}") (matchHere [Chr (Lit "}")] false) s =
  match splitAtClose s with
  | Some (String c g, r) => Some (String c g, r)
  | _ => None
  end.
Proof.
  induction s as [| c s IH]; [reflexivity |].
  cbn [matchPlus splitAtClose accepts].
  destruct (Ascii.eqb c "}"); [reflexivity |]. cbn [negb].
  rewrite IH.
  destruct (splitAtClose s) as [[[| d g] r] |] eqn:E; try reflexivity.
  - apply splitAtClose_spec in E as [-> _]. simpl. reflexivity.
  - destruct s as [| d s]; [reflexivity |].
    simpl in E. simpl.
    destruct (Ascii.eqb d "}"); [discriminate | reflexivity].
Qed.

Lemma matchHere_symbol b s :
  matchHere symbolPattern b s =
  match s with
  | String c s' =>
      if Ascii.eqb c "{" then
        match splitAtClose s' with
        | Some (String d g, r) => Some (String d g, r)
        | _ => None
        end
      else None
  | EmptyString => None
  end.
Proof.
  destruct s as [| c s]; [reflexivity |].
  cbn [symbolPattern matchHere accepts].
  destruct (Ascii.eqb c "{"); [apply matchPlus_symbol | reflexivity].
Qed.

Lemma matchHere_symbol_spec b s t r :
  matchHere symbolPattern b s = Some (t, r) <-> startsSymbol s t r.
Proof.
  rewrite matchHere_symbol. unfold startsSymbol. split.
  - destruct s as [| c s]; [discriminate |].
    destruct (Ascii.eqb_spec c "{") as [-> |]; [| discriminate].
    destruct (splitAtClose s) as [[[| d g] r'] |] eqn:E; try discriminate.
    intros [= <- <-]. apply splitAtClose_spec in E as [-> Hg].
    repeat split; [discriminate | exact Hg].
  - intros (-> & Ht & Hm). rewrite Ascii.eqb_refl.
    assert (E : splitAtClose (t ++ String "}" r) = Some (t, r))
      by (apply splitAtClose_spec; auto).
    rewrite E. destruct t; [contradiction | reflexivity].
Qed.

Lemma matchHere_symbol_suffix b s t r :
  matchHere symbolPattern b s = Some (t, r) ->
  suffix r s /\ String.length r < String.length s.
Proof.
  rewrite matchHere_symbol.
  destruct s as [| c s]; [discriminate |].
  destruct (Ascii.eqb c "{"); [| discriminate].
  destruct (splitAtClose s) as [[[| d g] r'] |] eqn:E; try discriminate.
  intros [= <- <-]. apply splitAtClose_suffix in E as [H1 H2].
  split; [auto | simpl; lia].
Qed.

Lemma startsSymbol_fun s t post t' post' :
  startsSymbol s t post -> startsSymbol s t' post' -> t = t' /\ post = post'.
Proof.
  intros H H'.
  apply (matchHere_symbol_spec false) in H, H'.
  rewrite H in H'. injection H' as -> ->. auto.
Qed.

Lemma search_symbol_suffix b s i t r :
  search symbolPattern b s = Some (i, t, r) ->
  suffix r s /\ String.length r < String.length s.
Proof.
  revert b i. induction s as [| c s IH]; intros b i.
  - cbn [search]. rewrite matchHere_symbol. discriminate.
  - cbn [search].
    destruct (matchHere symbolPattern b (String c s)) as [[g r'] |] eqn:E.
    + intros [= <- <- <-]. eapply matchHere_symbol_suffix; eauto.
    + destruct (search symbolPattern false s) as [[[j g] r'] |] eqn:E';
        [| discriminate].
      intros [= <- <- <-]. destruct (IH _ _ E'). split; [auto | simpl; lia].
Qed.

Lemma search_symbol_some b s i t r ts :
  search symbolPattern b s = Some (i, t, r) ->
  Scan r ts -> Scan s (t :: ts).
Proof.
  revert b i. induction s as [| c s IH]; intros b i.
  - cbn [search]. rewrite matchHere_symbol. discriminate.
  - cbn [search].
    destruct (matchHere symbolPattern b (String c s)) as [[g r'] |] eqn:E.
    + intros [= <- <- <-] Hr. apply matchHere_symbol_spec in E.
      eapply Scan_take; eauto.
    + destruct (search symbolPattern false s) as [[[j g] r'] |] eqn:E';
        [| discriminate].
      intros [= <- <- <-] Hr. apply Scan_skip; [| eauto].
      intros t' post H. apply (matchHere_symbol_spec b) in H. congruence.
Qed.

Lemma search_symbol_none b s :
  search symbolPattern b s = None -> Scan s [].
Proof.
  revert b. induction s as [| c s IH]; intros b.
  - intros _. constructor.
  - cbn [search].
    destruct (matchHere symbolPattern b (String c s)) as [[g r'] |] eqn:E;
      [discriminate |].
    destruct (search symbolPattern false s) as [[[j g] r'] |] eqn:E';
      [discriminate |].
    intros _. apply Scan_skip; [| eauto].
    intros t' post H. apply (matchHere_symbol_spec b) in H. congruence.
Qed.

Lemma Scan_fun s ts ts' : Scan s ts -> Scan s ts' -> ts = ts'.
Proof.
  intros H. revert ts'.
  induction H as [| c s ts Hno _ IH | s t post ts Ht _ IH]; intros ts' H'.
  - inversion H' as [| | s0 t0 post0 ts0 Ht0]; subst; [reflexivity |].
    destruct Ht0 as [? _]. discriminate.
  - inversion H'; subst; [auto |].
    exfalso. eapply Hno; eauto.
  - inversion H' as [| c0 s0 ts0 Hno | s0 t0 post0 ts0 Ht0 Hs0]; subst.
    + destruct Ht as [? _]. discriminate.
    + exfalso. eapply Hno; eauto.
    + destruct (startsSymbol_fun _ _ _ _ _ Ht Ht0) as [-> ->].
      f_equal. auto.
Qed.

(** The loop, started at any [lastIndex] inside the input, ends within the
    fuel it is given and pushes the scan of what lies after [lastIndex]. *)
Lemma whileExec_scan fuel : forall li s acc,
  li <= String.length s ->
  String.length s - li < fuel ->
  exists ts,
    whileExec fuel (RegExp.mk symbolPattern true li) s acc = Some (acc ++ ts)%list
    /\ Scan (Str.drop li s) ts.
Proof.
  induction fuel as [| fuel IH]; intros li s acc Hli Hfuel; [lia |].
  cbn [whileExec]. unfold exec. cbn [global lastIndex source].
  destruct (Nat.ltb_spec (String.length s) li) as [|_]; [lia |].
  destruct (search symbolPattern (Nat.eqb li 0) (Str.drop li s))
    as [[[i g] r] |] eqn:E.
  - destruct (search_symbol_suffix _ _ _ _ _ E) as [Hsuf Hlen].
    rewrite drop_length in Hlen by exact Hli.
    assert (Hrs : suffix r s) by (eapply suffix_trans; eauto using drop_suffix).
    pose proof (suffix_length _ _ Hrs) as Hle.
    unfold setLastIndex. cbn [global source group1].
    destruct (IH (String.length s - String.length r) s (acc ++ [g])%list)
      as (ts & Hrun & Hscan); [lia | lia |].
    exists (g :: ts). split.
    + rewrite Hrun, <- app_assoc. reflexivity.
    + rewrite suffix_drop in Hscan by exact Hrs.
      eapply search_symbol_some; eauto.
  - exists []. split; [rewrite app_nil_r; reflexivity |].
    eapply search_symbol_none; eauto.
Qed.

Lemma parseManaSymbols_Str_scan s :
  exists ts, parseManaSymbols (Js.Str s) = Some ts /\ Scan s ts.
Proof.
  unfold parseManaSymbols, Js.truthy. rewrite negb_involutive.
  destruct (String.eqb_spec s "") as [-> | Hs].
  - exists []. split; [reflexivity | constructor].
  - destruct (whileExec_scan (S (String.length s)) 0 s []) as (ts & H1 & H2);
      [lia | lia |].
    exists ts. split; [exact H1 |]. destruct s; exact H2.
Qed.

End SymbolPattern.

(** ** The tokenizer *)

Section Tokenizer.

Import CardBasicInfo Spec.

Lemma append_assoc (a b c : string) : (a ++ b) ++ c = a ++ (b ++ c).
Proof. induction a as [| x a IH]; simpl; [| rewrite IH]; reflexivity. Qed.

Lemma mem_append c a b : Str.mem c (a ++ b) = Str.mem c a || Str.mem c b.
Proof.
  induction a as [| x a IH]; simpl; [reflexivity |].
  rewrite IH, orb_assoc. reflexivity.
Qed.

Lemma Scan_tokens s ts :
  Scan s ts -> Forall (fun t => t <> "" /\ Str.mem "}" t = false) ts.
Proof.
  induction 1 as [| | s t post ts (_ & Ht & Hm) _ IH]; auto.
Qed.


Lemma startsSymbol_mem s t post :
  startsSymbol s t post -> Str.mem "}" s = true.
Proof.
  intros (-> & _ & _). simpl. rewrite mem_append. simpl.
  apply orb_true_r.
Qed.

(** Text without a closing brace holds no symbol. *)
Lemma Scan_no_close u : Str.mem "}" u = false -> Scan u [].
Proof.
  induction u as [| c u IH]; intros Hu; [constructor |].
  apply Scan_skip.
  - intros t post H. apply startsSymbol_mem in H. congruence.
  - simpl in Hu. apply orb_false_iff in Hu as [_ Hu]. auto.
Qed.

Lemma startsSymbol_append s t post u :
  startsSymbol s t post -> startsSymbol (s ++ u) t (post ++ u).
Proof.
  intros (-> & Ht & Hm). repeat split; auto.
  simpl. rewrite append_assoc. reflexivity.
Qed.




Lemma parseManaSymbols_of_Scan s ts :
  Scan s ts -> parseManaSymbols (Js.Str s) = Some ts.
Proof.
  intros H. destruct (parseManaSymbols_Str_scan s) as (ts' & Hp & Hs).
  rewrite Hp. f_equal. eapply Scan_fun; eauto.
Qed.

Lemma Scan_of_parseManaSymbols s ts :
  parseManaSymbols (Js.Str s) = Some ts -> Scan s ts.
Proof.
  intros H. destruct (parseManaSymbols_Str_scan s) as (ts' & Hp & Hs).
  congruence.
Qed.

(** C2 (as amended): for every input string the tokenizer returns the
    tokens of the left-to-right scan, one for each symbol met: an opening
    brace, a non-empty text without closing brace (an opening brace may
    occur in it), a closing brace. The token is the enclosed text, the
    scan goes on after the closing brace, and every other character is
    skipped without a token. *)
Theorem parseManaSymbols_scans (s : string) (ts : list string) :
  parseManaSymbols (Js.Str s) = Some ts <-> Scan s ts.
Proof.
  split; [apply Scan_of_parseManaSymbols | apply parseManaSymbols_of_Scan].
Qed.

(** C2 (as stated) fails: in the input of two opening braces, the letter a
    and a closing brace, the only brace pair with a brace-free interior
    encloses the letter alone, while the code returns the token made of
    the second opening brace and the letter. *)
Lemma parseManaSymbols_nested_open_brace :
  parseManaSymbols (Js.Str "{{a}") = Some ["{a"]
  /\ tokenize_spec "{{a}" = ["a"]
  /\ Str.mem "{" "{a" = true
  /\ parseManaSymbols (Js.Str "{{a}") <> Some (tokenize_spec "{{a}").
Proof. repeat split. discriminate. Qed.

(** *** Where the code and the wording of the specification agree *)

Lemma append_nil_r (a : string) : a ++ "" = a.
Proof. induction a as [| x a IH]; simpl; [| rewrite IH]; reflexivity. Qed.

Lemma tokenizeFrom_no_close s : forall cur,
  Str.mem "}" s = false -> tokenizeFrom cur s = [].
Proof.
  induction s as [| c s IH]; intros cur H; [reflexivity |].
  simpl in H. apply orb_false_iff in H as [Hc H]. cbn [tokenizeFrom].
  rewrite Hc. destruct (Ascii.eqb c "{"); auto.
Qed.

Lemma tokenizeFrom_inside t : forall a post,
  Str.mem "{" t = false -> Str.mem "}" t = false ->
  tokenizeFrom (Some a) (t ++ String "}" post)
  = (a ++ t) :: tokenizeFrom None post.
Proof.
  induction t as [| c t IH]; intros a post Ho Hc.
  - simpl. rewrite append_nil_r. reflexivity.
  - simpl in Ho, Hc.
    apply orb_false_iff in Ho as [Ho1 Ho], Hc as [Hc1 Hc].
    simpl. rewrite Ho1, Hc1. cbn [option_map].
    rewrite IH by assumption. rewrite append_assoc. reflexivity.
Qed.

Lemma splitAtClose_None s : splitAtClose s = None -> Str.mem "}" s = false.
Proof.
  induction s as [| c s IH]; simpl; [reflexivity |].
  destruct (Ascii.eqb c "}"); [discriminate |].
  destruct (splitAtClose s) as [[g r] |]; [discriminate | auto].
Qed.

Lemma hasEmptyPair_suffix r s :
  suffix r s -> hasEmptyPair s = false -> hasEmptyPair r = false.
Proof.
  induction 1 as [| c r s _ IH]; [auto |].
  simpl. intros H. apply orb_false_iff in H as [_ H]. auto.
Qed.

Lemma Scan_tokenize_spec s ts :
  Scan s ts ->
  hasEmptyPair s = false ->
  Forall (fun t => Str.mem "{" t = false) ts ->
  tokenize_spec s = ts.
Proof.
  unfold tokenize_spec.
  induction 1 as [| c s ts Hno Hs IH | s t post ts Ht Hs IH]; intros He Hts.
  - reflexivity.
  - pose proof He as He'. simpl in He'.
    apply orb_false_iff in He' as [Hpair He'].
    cbn [tokenizeFrom]. destruct (Ascii.eqb_spec c "{") as [-> | Hc].
    + assert (Hm : RegExp.matchHere symbolPattern false (String "{" s) = None).
      { destruct (RegExp.matchHere symbolPattern false (String "{" s))
          as [[g r] |] eqn:E; [| reflexivity].
        apply matchHere_symbol_spec in E. exfalso. exact (Hno _ _ E). }
      rewrite matchHere_symbol in Hm. rewrite Ascii.eqb_refl in Hm.
      destruct (splitAtClose s) as [[[| d g] r] |] eqn:E; try discriminate.
      * apply splitAtClose_spec in E as [-> _]. simpl in Hpair. discriminate.
      * apply splitAtClose_None in E.
        rewrite tokenizeFrom_no_close by exact E.
        eapply Scan_fun; [apply Scan_no_close; exact E | exact Hs].
    + destruct (Ascii.eqb c "}"); cbn [option_map]; auto.
  - pose proof Ht as (-> & Hne & Hc).
    apply (matchHere_symbol_spec false), matchHere_symbol_suffix in Ht as [Hsuf _].
    inversion Hts as [| t' ts' Ho Hts']; subst.
    cbn [tokenizeFrom]. rewrite Ascii.eqb_refl.
    rewrite tokenizeFrom_inside by assumption. simpl. f_equal.
    apply IH; [eapply hasEmptyPair_suffix; eauto | assumption].
Qed.

(** On an input without an empty brace pair, and as long as no token the
    code returns holds an opening brace, the code returns the tokens of the
    specification: one per brace pair with a brace-free interior. *)
Theorem parseManaSymbols_meets_spec (s : string) (ts : list string) :
  parseManaSymbols (Js.Str s) = Some ts ->
  hasEmptyPair s = false ->
  Forall (fun t => Str.mem "{" t = false) ts ->
  tokenize_spec s = ts.
Proof.
  intros H. apply Scan_tokenize_spec, Scan_of_parseManaSymbols, H.
Qed.

Lemma parseManaSymbols_meets_spec_witness :
  tokenize_spec "X{2}}{U}{U" = ["2"; "U"].
Proof.
  apply parseManaSymbols_meets_spec; [reflexivity | reflexivity |].
  repeat constructor.
Defined.




(** C8: the empty string, [null] and [undefined] all tokenize to the empty
    sequence. *)
Theorem parseManaSymbols_empty_or_absent :
  parseManaSymbols (Js.Str "") = Some []
  /\ parseManaSymbols Js.Null = Some []
  /\ parseManaSymbols Js.Undefined = Some [].
Proof. repeat split. Qed.

(** C9: every token the tokenizer returns is non-empty and holds no closing
    brace; an opening brace directly followed by a closing one yields no
    token. *)
Theorem parseManaSymbols_tokens_nonempty_closed :
  parseManaSymbols (Js.Str "{}") = Some []
  /\ forall v ts,
       parseManaSymbols v = Some ts ->
       Forall (fun t => t <> "" /\ Str.mem "}" t = false) ts.
Proof.
  split; [reflexivity |].
  intros [| | s] ts H; try (injection H as <-; constructor).
  apply Scan_of_parseManaSymbols in H. eapply Scan_tokens; eauto.
Qed.

Lemma parseManaSymbols_tokens_nonempty_closed_witness :
  Forall (fun t => t <> "" /\ Str.mem "}" t = false) ["2"; "U"; "U"].
Proof.
  apply (proj2 parseManaSymbols_tokens_nonempty_closed (Js.Str "{2}{U}{U}")).
  reflexivity.
Defined.

End Tokenizer.

(** ** The symbol classifier *)

Section Classifier.

Import RegExp CardBasicInfo Spec.

Lemma matchPlus_digits s :
  matchPlus false Digit (matchHere [Eol] false) s =
  if isNumeric s then Some ("", "") else None.
Proof.
  induction s as [| c s IH]; [reflexivity |].
  cbn [matchPlus accepts]. unfold isNumeric in *. cbn [allDigits String.eqb negb andb].
  destruct (isDigit c); [| reflexivity]. cbn [andb].
  rewrite IH. destruct s as [| d s]; [reflexivity |].
  cbn [String.eqb negb andb matchHere].
  destruct (allDigits (String d s)); reflexivity.
Qed.

Lemma search_anchored_none p s : search (Bol :: p) false s = None.
Proof. induction s as [| c s IH]; cbn [search matchHere]; [| rewrite IH]; reflexivity. Qed.

Lemma test_digitsRegex s : test digitsRegex s = isNumeric s.
Proof.
  unfold test, exec, digitsRegex. cbn [global lastIndex source].
  cbn [Nat.ltb Nat.leb Nat.eqb].
  replace (Str.drop 0 s) with s by (destruct s; reflexivity).
  destruct s as [| c s].
  - reflexivity.
  - cbn [search]. rewrite search_anchored_none.
    cbn [matchHere]. rewrite matchPlus_digits.
    destruct (isNumeric (String c s)); reflexivity.
Qed.

(** A token that names a property every object inherits reads that
    property off the color map: the result is the inherited function or
    object, not a class string. *)
Theorem getManaSymbolColor_inherited (s : string) :
  Js.inherited s = true -> getManaSymbolColor s = Js.VObject s.
Proof.
  unfold Js.inherited. intros H.
  apply existsb_exists in H as (k & Hin & Heq).
  apply String.eqb_eq in Heq. subst k.
  simpl in Hin.
  repeat (destruct Hin as [<- | Hin]; [reflexivity |]). contradiction.
Qed.

Lemma getManaSymbolColor_inherited_witness :
  getManaSymbolColor "constructor" = Js.VObject "constructor".
Proof. apply getManaSymbolColor_inherited. reflexivity. Defined.

Lemma assoc_In own k v : Js.assoc own k = Some v -> In (k, v) own.
Proof.
  induction own as [| [k' v'] own IH]; simpl; [discriminate |].
  destruct (String.eqb_spec k' k) as [-> |].
  - intros [= ->]. auto.
  - auto.
Qed.

Lemma color_keys_not_numeric k v :
  In (k, v) colorMap ->
  isNumeric k = false /\ Js.assoc colorMap k = Some v /\ v <> "".
Proof.
  unfold colorMap. simpl.
  intros H; repeat destruct H as [H | H]; try contradiction;
    injection H as <- <-; repeat split; discriminate.
Qed.

(** C3 (as amended): a token of one or more decimal digits gets the
    Numeric class string; each of W, U, B, R, G and C gets the class string
    the color map gives it, and these six and the default are pairwise
    distinct; any other token that does not name a property inherited from
    [Object.prototype] gets the default class string, which is the Numeric
    one; and whatever the token, the result is a defined, truthy value. *)
Theorem getManaSymbolColor_classifies :
  (forall s, isNumeric s = true ->
     getManaSymbolColor s = Js.VString numericClasses)
  /\ (forall k v, In (k, v) colorMap -> getManaSymbolColor k = Js.VString v)
  /\ map fst colorMap = ["W"; "U"; "B"; "R"; "G"; "C"]
  /\ NoDup (defaultClasses :: map snd colorMap)
  /\ (forall s, isNumeric s = false ->
        ~ In s ["W"; "U"; "B"; "R"; "G"; "C"] ->
        Js.inherited s = false ->
        getManaSymbolColor s = Js.VString defaultClasses)
  /\ numericClasses = defaultClasses
  /\ (forall s, Js.truthyValue (getManaSymbolColor s) = true).
Proof.
  split; [| split; [| split; [| split; [| split; [| split]]]]].
  - intros s Hs. unfold getManaSymbolColor.
    rewrite test_digitsRegex, Hs. reflexivity.
  - intros k v H. destruct (color_keys_not_numeric k v H) as (Hn & Ha & Hv).
    unfold getManaSymbolColor, Js.getProperty, Js.orValue.
    rewrite test_digitsRegex, Hn, Ha. cbn [Js.truthyValue].
    apply String.eqb_neq in Hv. rewrite Hv. reflexivity.
  - reflexivity.
  - repeat constructor; simpl; intuition discriminate.
  - intros s Hn Hs Hi. unfold getManaSymbolColor, Js.getProperty.
    rewrite test_digitsRegex, Hn, Hi.
    destruct (Js.assoc colorMap s) as [v |] eqn:E; [| reflexivity].
    exfalso. apply Hs. apply assoc_In in E.
    change (In (fst (s, v)) (map fst colorMap)). apply in_map. exact E.
  - reflexivity.
  - intros s. unfold getManaSymbolColor, Js.getProperty, Js.orValue.
    destruct (test digitsRegex s); [reflexivity |].
    destruct (Js.assoc colorMap s) as [v |] eqn:E.
    + apply assoc_In, color_keys_not_numeric in E as (_ & _ & Hv).
      cbn [Js.truthyValue]. apply String.eqb_neq in Hv. rewrite Hv.
      cbn [negb Js.truthyValue]. rewrite Hv. reflexivity.
    + destruct (Js.inherited s); reflexivity.
Qed.

Lemma getManaSymbolColor_classifies_witness :
  getManaSymbolColor "12" = Js.VString numericClasses
  /\ getManaSymbolColor "U" =
       Js.VString "bg-blue-100 text-blue-800 border-blue-300"
  /\ getManaSymbolColor "X" = Js.VString defaultClasses.
Proof.
  destruct getManaSymbolColor_classifies as (Hnum & Hcol & _ & _ & Hother & _).
  split; [apply Hnum; reflexivity |].
  split; [apply Hcol; simpl; auto |].
  apply Hother; [reflexivity | | reflexivity].
  simpl. intuition discriminate.
Defined.

(** C3 (as stated) fails: the token C is neither made of digits nor one of
    W, U, B, R, G, and it does not get the default class string: the color
    map has an entry for it. *)
Lemma getManaSymbolColor_colorless_not_default :
  isNumeric "C" = false
  /\ ~ In "C" ["W"; "U"; "B"; "R"; "G"]
  /\ getManaSymbolColor "C" =
       Js.VString "bg-gray-300 text-gray-700 border-gray-400"
  /\ getManaSymbolColor "C" <> Js.VString defaultClasses.
Proof.
  split; [reflexivity |]. split; [simpl; intuition discriminate |].
  split; [reflexivity | discriminate].
Qed.

End Classifier.

(** ** The image loader *)

Section ImageLoader.

Import CardImageViewer Spec.

(** The three states are what the component shows: the fallback, the image
    at full opacity without skeleton, or the skeleton over a hidden image. *)
Lemma loadState_display card h :
  match loadState h with
  | Failed => render card h = fallbackOf card
  | Loaded =>
      render card h =
      ImageView false (selectImageUrl card) (name card ++ " card image")
        "rounded-lg shadow-lg transition-opacity duration-300 opacity-100"
  | Loading =>
      render card h =
      ImageView true (selectImageUrl card) (name card ++ " card image")
        "rounded-lg shadow-lg transition-opacity duration-300 opacity-0"
  end.
Proof. destruct h as [[] []]; reflexivity. Qed.

Lemma run_cons i e es : run i (e :: es) = run (step i e) es.
Proof. reflexivity. Qed.

Lemma step_imageError i e :
  imageError (cells i) = true -> imageError (cells (step i e)) = true.
Proof. destruct e; simpl; auto. Qed.

Lemma step_imageLoaded i e :
  imageLoaded (cells i) = true -> imageLoaded (cells (step i e)) = true.
Proof. destruct e; simpl; auto. Qed.

Lemma run_imageError es : forall i,
  imageError (cells i) = true -> imageError (cells (run i es)) = true.
Proof.
  induction es as [| e es IH]; intros i H; [exact H |].
  rewrite run_cons. apply IH, step_imageError, H.
Qed.

Lemma run_imageLoaded es : forall i,
  imageLoaded (cells i) = true -> imageLoaded (cells (run i es)) = true.
Proof.
  induction es as [| e es IH]; intros i H; [exact H |].
  rewrite run_cons. apply IH, step_imageLoaded, H.
Qed.

Lemma run_fired_error es : forall i,
  In OnError es -> imageError (cells (run i es)) = true.
Proof.
  induction es as [| e es IH]; intros i H; [contradiction |].
  rewrite run_cons. destruct H as [-> | H]; [| auto].
  apply run_imageError. reflexivity.
Qed.

Lemma run_fired_load es : forall i,
  In OnLoad es -> imageLoaded (cells (run i es)) = true.
Proof.
  induction es as [| e es IH]; intros i H; [contradiction |].
  rewrite run_cons. destruct H as [-> | H]; [| auto].
  apply run_imageLoaded. reflexivity.
Qed.

Lemma display_failed i :
  imageError (cells i) = true -> display i = fallbackOf (props i).
Proof. unfold display, render. intros ->. reflexivity. Qed.

Lemma loadState_Failed h : loadState h = Failed <-> imageError h = true.
Proof. destruct h as [[] []]; cbn; split; intros H; congruence. Qed.

Lemma run_rerenders_cells cards : forall i,
  cells (run i (map Rerender cards)) = cells i.
Proof.
  induction cards as [| c cards IH]; intros i; [reflexivity |].
  simpl map. rewrite run_cons, IH. reflexivity.
Qed.

(** C1 (as amended): once the loader is Failed, no signal and no re-render
    moves it out of Failed; once it is Loaded, a load signal or a re-render
    keeps it Loaded and an error signal moves it to Failed. No event
    re-enters Loading: a re-render, with whatever card and so with a new
    source too, leaves both cells as they are, and Loading is the state of
    a newly mounted instance. *)
Theorem loader_never_reenters_Loading (i : instance) :
  (loadState (cells i) = Failed ->
     forall e, loadState (cells (step i e)) = Failed)
  /\ (loadState (cells i) = Loaded ->
        loadState (cells (step i OnLoad)) = Loaded
        /\ loadState (cells (step i OnError)) = Failed
        /\ forall card, loadState (cells (step i (Rerender card))) = Loaded)
  /\ (forall e, loadState (cells i) <> Loading ->
        loadState (cells (step i e)) <> Loading)
  /\ (forall card, cells (step i (Rerender card)) = cells i)
  /\ loadState (cells (mount (props i))) = Loading.
Proof.
  destruct i as [card [[] []]]; cbn;
    repeat split; intros; try destruct e; cbn in *; congruence.
Qed.

Lemma loader_never_reenters_Loading_witness :
  loadState (cells (step (step (mount cardA) OnError) OnLoad)) = Failed
  /\ loadState (cells (step (step (mount cardA) OnLoad) OnLoad)) = Loaded.
Proof.
  split.
  - apply (proj1 (loader_never_reenters_Loading (step (mount cardA) OnError))).
    reflexivity.
  - apply (proj1 (proj2 (loader_never_reenters_Loading
                           (step (mount cardA) OnLoad)))).
    reflexivity.
Defined.

(** C1 (as stated) fails twice on an instance mounted with one card and
    loaded: re-rendered with a card of another source it is still Loaded,
    not Loading; and an error signal moves it out of Loaded, to Failed. *)
Lemma loaded_instance_keeps_state_on_new_source :
  loadState (cells (step (mount cardA) OnLoad)) = Loaded
  /\ selectImageUrl cardA = Some "a-large.jpg"
  /\ selectImageUrl cardB = Some "b-large.jpg"
  /\ loadState (cells (step (step (mount cardA) OnLoad) (Rerender cardB)))
     = Loaded
  /\ loadState (cells (step (step (mount cardA) OnLoad) OnError)) = Failed.
Proof. repeat split. Qed.

(** C4: a newly mounted loader is Loading whatever the card; the success
    signal takes a Loading loader to Loaded; and a Loaded loader stays
    Loaded through any number of re-renders with the same source. *)
Theorem loader_loads_and_stays_loaded (card : Card) :
  loadState (cells (mount card)) = Loading
  /\ loadState (cells (step (mount card) OnLoad)) = Loaded
  /\ (forall i, loadState (cells i) = Loading ->
        loadState (cells (step i OnLoad)) = Loaded)
  /\ (forall i cards,
        loadState (cells i) = Loaded ->
        Forall (fun c => selectImageUrl c = selectImageUrl (props i)) cards ->
        loadState (cells (run i (map Rerender cards))) = Loaded).
Proof.
  repeat split.
  - intros [c [[] []]]; cbn; congruence.
  - intros i cards H _. rewrite run_rerenders_cells. exact H.
Qed.

Lemma loader_loads_and_stays_loaded_witness :
  loadState (cells (run (step (mount cardA) OnLoad)
                        (map Rerender [cardA; cardA]))) = Loaded.
Proof.
  apply (proj2 (proj2 (proj2 (loader_loads_and_stays_loaded cardA)))).
  - reflexivity.
  - repeat constructor.
Defined.


(** Decide every emptiness test in the goal and simplify [||] with it. *)
Ltac split_empty :=
  repeat match goal with
         | |- context [String.eqb ?x ""] =>
             let E := fresh "E" in
             destruct (String.eqb x "") eqn:E; cbn [Js.or]; rewrite ?E
         end.

(** C6: for every card, when some candidate among [imageUrls.large],
    [imageUrls.normal] and [imageUrl], in that order, is present and not
    empty, the loader resolves its source to the first such candidate. *)
Theorem selectImageUrl_first_non_empty (card : Card) (u : string) :
  firstNonEmpty (candidates card) = Some u -> selectImageUrl card = Some u.
Proof.
  destruct card as [n [[l m] |] g]; unfold candidates, selectImageUrl, optionalChain;
    cbn [imageUrls imageUrl large normal firstNonEmpty Js.or].
  - destruct l as [l |], m as [m |], g as [g |]; cbn [Js.or];
      split_empty; congruence.
  - destruct g as [g |]; split_empty; congruence.
Qed.

Lemma selectImageUrl_first_non_empty_witness :
  selectImageUrl
    (mkCard "Island" (Some (mkImageUrls (Some "") (Some "n.jpg")))
            (Some "g.jpg"))
  = Some "n.jpg".
Proof. apply selectImageUrl_first_non_empty. reflexivity. Defined.

(** With no candidate present and not empty, the source is the generic
    field as it is, absent or empty. *)
Lemma selectImageUrl_no_candidate (card : Card) :
  firstNonEmpty (candidates card) = None ->
  selectImageUrl card = imageUrl card.
Proof.
  destruct card as [n [[l m] |] g]; unfold candidates, selectImageUrl, optionalChain;
    cbn [imageUrls imageUrl large normal firstNonEmpty Js.or]; [| reflexivity].
  destruct l as [l |], m as [m |], g as [g |]; cbn [Js.or];
    split_empty; congruence.
Qed.

(** C10: a cell that is set stays set through every later signal and
    re-render; and once both the error and the success signal have fired,
    in whatever order, the fallback is what the component shows. *)
Theorem flags_monotone_error_wins (i : instance) (es : list event) :
  (imageError (cells i) = true -> imageError (cells (run i es)) = true)
  /\ (imageLoaded (cells i) = true -> imageLoaded (cells (run i es)) = true)
  /\ (In OnError es -> In OnLoad es ->
        imageError (cells (run i es)) = true
        /\ imageLoaded (cells (run i es)) = true
        /\ loadState (cells (run i es)) = Failed
        /\ display (run i es) =
             FallbackView jokerIcon (name (props (run i es)))
                          "Image not available").
Proof.
  split; [apply run_imageError |]. split; [apply run_imageLoaded |].
  intros He Hl.
  pose proof (run_fired_error es i He) as HE.
  pose proof (run_fired_load es i Hl) as HL.
  repeat split; auto.
  - apply loadState_Failed, HE.
  - apply display_failed, HE.
Qed.

Lemma flags_monotone_error_wins_witness :
  display (run (mount cardA) [OnLoad; OnError]) =
    FallbackView jokerIcon "Island" "Image not available".
Proof.
  apply (proj2 (proj2 (flags_monotone_error_wins (mount cardA)
                         [OnLoad; OnError]))); simpl; auto.
Defined.

End ImageLoader.

(** ** More on the tokenizer: composition, round trip, bounds *)

Section TokenizerComposition.

Import CardBasicInfo Spec.

Lemma length_append (a b : string) :
  String.length (a ++ b) = String.length a + String.length b.
Proof. induction a as [| x a IH]; simpl; [| rewrite IH]; reflexivity. Qed.

Lemma splitAtClose_append_found x y g r :
  splitAtClose x = Some (g, r) -> splitAtClose (x ++ y) = Some (g, r ++ y).
Proof.
  revert g r. induction x as [| c x IH]; intros g r; simpl; [discriminate |].
  destruct (Ascii.eqb c "}").
  - intros [= <- <-]. reflexivity.
  - destruct (splitAtClose x) as [[g' r'] |]; [| discriminate].
    intros [= <- <-]. rewrite (IH g' r' eq_refl). reflexivity.
Qed.

Lemma endsClosed_tail c s : endsClosed (String c s) = true -> endsClosed s = true.
Proof. destruct s; simpl; auto. Qed.

Lemma endsClosed_suffix r s :
  suffix r s -> endsClosed s = true -> endsClosed r = true.
Proof.
  induction 1 as [| c r s _ IH]; intros H; [exact H |].
  apply IH, (endsClosed_tail c), H.
Qed.

Lemma mem_close_splits s :
  Str.mem "}" s = true -> exists g r, splitAtClose s = Some (g, r).
Proof.
  induction s as [| c s IH]; simpl; [discriminate |].
  destruct (Ascii.eqb c "}"); [eauto |]. simpl. intros H.
  destruct (IH H) as (g & r & ->). eauto.
Qed.

Lemma endsClosed_mem s : forall c,
  endsClosed (String c s) = true -> Str.mem "}" (String c s) = true.
Proof.
  induction s as [| d s IH]; intros c H.
  - simpl in *. rewrite H. reflexivity.
  - change (Ascii.eqb c "}" || Str.mem "}" (String d s) = true).
    rewrite (IH d H). apply orb_true_r.
Qed.

Lemma endsClosed_splits c s :
  endsClosed (String c s) = true ->
  exists g r, splitAtClose (String c s) = Some (g, r).
Proof. intros H. apply mem_close_splits, endsClosed_mem, H. Qed.

(** In front of more input, a text that ends with a closing brace starts
    the same symbol as alone. *)
Lemma startsSymbol_closed_unappend x y t post :
  endsClosed x = true -> x <> "" ->
  startsSymbol (x ++ y) t post ->
  exists post', startsSymbol x t post' /\ post = post' ++ y.
Proof.
  intros Hx Hne H. apply (matchHere_symbol_spec false) in H.
  rewrite matchHere_symbol in H.
  destruct x as [| c x]; [contradiction |]. simpl in H.
  destruct (Ascii.eqb c "{") eqn:Ec; [| discriminate].
  destruct x as [| d x].
  - simpl in Hx. apply Ascii.eqb_eq in Ec, Hx. subst c. discriminate.
  - destruct (endsClosed_splits d x) as (g & r & E); [exact Hx |].
    rewrite (splitAtClose_append_found _ y _ _ E) in H.
    destruct g as [| e g]; [discriminate |]. injection H as <- <-.
    exists r. split; [| reflexivity].
    apply (matchHere_symbol_spec false). rewrite matchHere_symbol.
    rewrite Ec, E. reflexivity.
Qed.

Lemma Scan_append s1 ts1 s2 ts2 :
  endsClosed s1 = true ->
  Scan s1 ts1 -> Scan s2 ts2 -> Scan (s1 ++ s2) (ts1 ++ ts2).
Proof.
  intros Hc H1 H2.
  induction H1 as [| c s ts Hno _ IH | s t post ts Ht _ IH].
  - exact H2.
  - simpl. apply Scan_skip.
    + intros t post H.
      destruct (startsSymbol_closed_unappend (String c s) s2 t post)
        as (p & Hp & _); [exact Hc | discriminate | exact H |].
      exact (Hno _ _ Hp).
    + apply IH, (endsClosed_tail c), Hc.
  - simpl. eapply Scan_take; [apply startsSymbol_append; exact Ht |].
    apply IH. eapply endsClosed_suffix; [| exact Hc].
    apply (matchHere_symbol_spec false), matchHere_symbol_suffix in Ht.
    apply Ht.
Qed.

(** After a text that is empty or ends with a closing brace, more input
    only adds its own tokens: the tokens of the whole are those of the
    first part followed by those of the second. *)
Theorem parseManaSymbols_append (s1 s2 : string) (ts1 ts2 : list string) :
  endsClosed s1 = true ->
  parseManaSymbols (Js.Str s1) = Some ts1 ->
  parseManaSymbols (Js.Str s2) = Some ts2 ->
  parseManaSymbols (Js.Str (s1 ++ s2)) = Some (ts1 ++ ts2)%list.
Proof.
  intros Hc H1 H2. apply parseManaSymbols_of_Scan.
  apply Scan_append; auto using Scan_of_parseManaSymbols.
Qed.

Lemma parseManaSymbols_append_witness :
  parseManaSymbols (Js.Str ("{2}x}" ++ "{U}{U}"))
  = Some (["2"] ++ ["U"; "U"])%list.
Proof. apply parseManaSymbols_append; reflexivity. Defined.

Lemma Scan_bracedSymbols ts : Forall isSymbol ts -> Scan (bracedSymbols ts) ts.
Proof.
  induction 1 as [| t ts [Hne Hm] _ IH]; [constructor |].
  simpl. eapply Scan_take; [| exact IH].
  repeat split; assumption.
Qed.

(** Round trip: a list of symbols, each non-empty and without closing
    brace, written in the brace notation and parsed, is the list again. *)
Theorem parseManaSymbols_bracedSymbols (ts : list string) :
  Forall isSymbol ts ->
  parseManaSymbols (Js.Str (bracedSymbols ts)) = Some ts.
Proof. intros H. apply parseManaSymbols_of_Scan, Scan_bracedSymbols, H. Qed.

Lemma parseManaSymbols_bracedSymbols_witness :
  parseManaSymbols (Js.Str (bracedSymbols ["10"; "W/U"; "{G"])) =
  Some ["10"; "W/U"; "{G"].
Proof.
  apply parseManaSymbols_bracedSymbols.
  repeat constructor; discriminate.
Defined.

Lemma Scan_occurs s ts :
  Scan s ts ->
  forall t, In t ts ->
  exists pre post, s = pre ++ String "{" (t ++ String "}" post).
Proof.
  induction 1 as [| c s ts _ _ IH | s t0 post ts (-> & _ & _) _ IH];
    intros t Hin.
  - contradiction.
  - destruct (IH t Hin) as (pre & post & ->).
    exists (String c pre), post. reflexivity.
  - destruct Hin as [<- | Hin].
    + exists "", post. reflexivity.
    + destruct (IH t Hin) as (pre & post' & ->).
      exists (String "{" (t0 ++ String "}" pre)), post'.
      simpl. rewrite append_assoc. reflexivity.
Qed.

(** Every token returned stands in the input, between an opening and a
    closing brace: the parser invents no text. *)
Theorem parseManaSymbols_tokens_occur (s : string) (ts : list string)
    (t : string) :
  parseManaSymbols (Js.Str s) = Some ts ->
  In t ts ->
  exists pre post, s = pre ++ String "{" (t ++ String "}" post).
Proof.
  intros H. apply Scan_occurs, Scan_of_parseManaSymbols, H.
Qed.

Lemma parseManaSymbols_tokens_occur_witness :
  exists pre post, "X{R}Y{2}" = pre ++ String "{" ("2" ++ String "}" post).
Proof.
  apply (parseManaSymbols_tokens_occur "X{R}Y{2}" ["R"; "2"]).
  - reflexivity.
  - simpl. auto.
Defined.

Lemma Scan_length s ts :
  Scan s ts ->
  list_sum (map (fun t => String.length t + 2) ts) <= String.length s.
Proof.
  induction 1 as [| c s ts _ _ IH | s t post ts (-> & _ & _) _ IH];
    simpl; [lia | lia |].
  rewrite length_append. simpl. lia.
Qed.

Lemma tokens_at_least_three ts :
  Forall (fun t => t <> "" /\ Str.mem "}" t = false) ts ->
  3 * List.length ts <= list_sum (map (fun t => String.length t + 2) ts).
Proof.
  induction 1 as [| t ts [Hne _] _ IH]; simpl; [lia |].
  destruct t as [| c t]; [contradiction |]. simpl. lia.
Qed.

(** The tokens and their braces fit in the input: the lengths of the
    tokens plus two per token do not exceed the length of the input, so an
    input of length n yields at most n / 3 tokens. *)
Theorem parseManaSymbols_length_bound (s : string) (ts : list string) :
  parseManaSymbols (Js.Str s) = Some ts ->
  list_sum (map (fun t => String.length t + 2) ts) <= String.length s
  /\ 3 * List.length ts <= String.length s.
Proof.
  intros H. apply Scan_of_parseManaSymbols in H.
  pose proof (Scan_length _ _ H) as Hlen.
  pose proof (tokens_at_least_three _ (Scan_tokens _ _ H)) as Htok.
  lia.
Qed.

Lemma parseManaSymbols_length_bound_witness :
  list_sum (map (fun t => String.length t + 2) ["10"; "U"])
    <= String.length "{10}-{U}"
  /\ 3 * List.length ["10"; "U"] <= String.length "{10}-{U}".
Proof. apply parseManaSymbols_length_bound. reflexivity. Defined.

End TokenizerComposition.

(** ** More on the classifier *)

Section ClassifierStrings.

Import RegExp CardBasicInfo Spec.

Lemma inherited_not_styled s :
  Js.inherited s = true -> getManaSymbolColor s = Js.VObject s.
Proof.
  unfold Js.inherited. intros H.
  apply existsb_exists in H as (k & Hin & Heq).
  apply String.eqb_eq in Heq. subst k. simpl in Hin.
  repeat (destruct Hin as [<- | Hin]; [reflexivity |]). contradiction.
Qed.

(** The classifier returns a class string exactly for the tokens that do
    not name a property inherited from [Object.prototype], and then it is
    the default string or one of the six strings of the color map. *)
Theorem getManaSymbolColor_class_string (s : string) :
  Js.inherited s = false <->
  exists cls,
    getManaSymbolColor s = Js.VString cls
    /\ In cls (defaultClasses :: map snd colorMap).
Proof.
  split.
  - intros Hi. unfold getManaSymbolColor, Js.getProperty, Js.orValue.
    destruct (test digitsRegex s).
    + eexists. split; [reflexivity | left; reflexivity].
    + rewrite Hi. destruct (Js.assoc colorMap s) as [v |] eqn:E.
      * pose proof (assoc_In _ _ _ E) as Hin.
        destruct (color_keys_not_numeric _ _ Hin) as (_ & _ & Hv).
        cbn [Js.truthyValue]. apply String.eqb_neq in Hv. rewrite Hv.
        exists v. split; [reflexivity |]. right.
        change (In (snd (s, v)) (map snd colorMap)). apply in_map, Hin.
      * eexists. split; [reflexivity | left; reflexivity].
  - intros (cls & H & _). destruct (Js.inherited s) eqn:Hi; [| reflexivity].
    rewrite (inherited_not_styled s Hi) in H. discriminate.
Qed.

End ClassifierStrings.

(** ** The rarity badge *)

Section Rarity.

Import CardBasicInfoView.

(** Two rarities never share their badge classes, and the classes of a
    rarity start with the base classes, which no rarity changes. *)
Theorem getRarityClasses_injective (r1 r2 : CardRarity) :
  (getRarityClasses r1 = getRarityClasses r2 <-> r1 = r2)
  /\ String.prefix baseClasses (getRarityClasses r1) = true.
Proof.
  split.
  - split; [| intros ->; reflexivity].
    destruct r1, r2; intros H; try reflexivity; discriminate H.
  - destruct r1; reflexivity.
Qed.

End Rarity.

(** ** The CardBasicInfo component *)

Section Component.

Import CardBasicInfo CardBasicInfoView Spec.

Lemma mapFrom_label ts : forall n, map label (mapFrom n manaBadge ts) = ts.
Proof. induction ts as [| t ts IH]; intros n; simpl; [| rewrite IH]; reflexivity. Qed.

Lemma mapFrom_title ts : forall n, map title (mapFrom n manaBadge ts) = ts.
Proof. induction ts as [| t ts IH]; intros n; simpl; [| rewrite IH]; reflexivity. Qed.

Lemma mapFrom_color ts : forall n,
  map color (mapFrom n manaBadge ts) = map getManaSymbolColor ts.
Proof. induction ts as [| t ts IH]; intros n; simpl; [| rewrite IH]; reflexivity. Qed.

(** The component renders for every card, absent mana cost included. Its
    mana row says that there is no cost exactly when the parser returns no
    token; otherwise it holds one badge per token, in the order of the
    tokens, each with the token as label and title and with the classes of
    the classifier. *)
Theorem CardBasicInfo_mana_row (card : Card) :
  exists v ts,
    CardBasicInfo card = Some v
    /\ parseManaSymbols (manaCost card) = Some ts
    /\ match manaCostRow v with
       | NoCost => ts = []
       | Badges spans =>
           ts <> []
           /\ map label spans = ts
           /\ map title spans = ts
           /\ map color spans = map getManaSymbolColor ts
       end.
Proof.
  assert (Ht : exists ts, parseManaSymbols (manaCost card) = Some ts).
  { destruct (manaCost card) as [| | s]; [exists []; reflexivity .. |].
    destruct (parseManaSymbols_Str_scan s) as (ts & H & _). eauto. }
  destruct Ht as (ts & Ht). unfold CardBasicInfo. rewrite Ht.
  eexists. exists ts. split; [reflexivity |]. split; [reflexivity |].
  cbn [manaCostRow]. unfold manaRow, mapWithIndex.
  destruct ts as [| t ts]; [reflexivity |].
  cbn [List.length Nat.ltb Nat.leb].
  split; [discriminate |].
  rewrite mapFrom_label, mapFrom_title, mapFrom_color. auto.
Qed.

Lemma digits_no_dash d : Str.mem "-" (NilEmpty.string_of_uint d) = false.
Proof. induction d; simpl; auto. Qed.

Lemma numberToString_inj i j : numberToString i = numberToString j -> i = j.
Proof.
  unfold numberToString. intros H.
  apply Unsigned.to_uint_inj.
  assert (E : Some (Nat.to_uint i) = Some (Nat.to_uint j)).
  { rewrite <- !NilEmpty.usu, H. reflexivity. }
  injection E as E. exact E.
Qed.

Lemma dash_split a : forall a' d d',
  Str.mem "-" d = false -> Str.mem "-" d' = false ->
  a ++ String "-" d = a' ++ String "-" d' -> d = d'.
Proof.
  induction a as [| c a IH]; intros [| c' a'] d d' Hd Hd' H; simpl in H.
  - injection H as H. exact H.
  - injection H as <- H. subst d. rewrite mem_append in Hd. simpl in Hd.
    rewrite orb_true_r in Hd. discriminate.
  - injection H as -> H. subst d'. rewrite mem_append in Hd'. simpl in Hd'.
    rewrite orb_true_r in Hd'. discriminate.
  - injection H as _ H. eapply IH; eauto.
Qed.

Lemma mapFrom_keys ts : forall n k,
  In k (map key (mapFrom n manaBadge ts)) ->
  exists s j, n <= j /\ k = s ++ String "-" (numberToString j).
Proof.
  induction ts as [| t ts IH]; intros n k H; [contradiction |].
  destruct H as [<- | H].
  - exists t, n. split; [lia | reflexivity].
  - destruct (IH _ _ H) as (s & j & Hj & ->).
    exists s, j. split; [lia | reflexivity].
Qed.

Lemma mapFrom_keys_NoDup ts : forall n,
  NoDup (map key (mapFrom n manaBadge ts)).
Proof.
  induction ts as [| t ts IH]; intros n; simpl; constructor; [| apply IH].
  intros H. apply mapFrom_keys in H as (s & j & Hj & H).
  apply dash_split in H; try apply digits_no_dash.
  apply numberToString_inj in H. lia.
Qed.

(** The keys of the badges of a mana row are pairwise distinct, whatever
    the tokens, repeated ones and ones that hold a dash included. *)
Theorem manaRow_keys_distinct (card : Card) (v : View)
    (spans : list ManaBadge) :
  CardBasicInfo card = Some v ->
  manaCostRow v = Badges spans ->
  NoDup (map key spans).
Proof.
  unfold CardBasicInfo.
  destruct (parseManaSymbols (manaCost card)) as [ts |]; [| discriminate].
  intros [= <-]. cbn [manaCostRow]. unfold manaRow.
  destruct (Nat.ltb 0 (List.length ts)); [| discriminate].
  intros [= <-]. apply mapFrom_keys_NoDup.
Qed.

Lemma manaRow_keys_distinct_witness :
  NoDup (map key (mapWithIndex manaBadge ["U"; "U"; "1-1"])).
Proof.
  eapply (manaRow_keys_distinct sampleCard); reflexivity.
Defined.

(** Decide every emptiness test in the goal, keeping what was found. *)
Ltac split_tests :=
  repeat match goal with
         | |- context [String.eqb ?x ""] =>
             let E := fresh "E" in
             destruct (String.eqb x "") eqn:E;
             cbn [Js.or truthy negb andb]; rewrite ?E
         end.

(** The block of power, toughness and loyalty. It is left out exactly when
    power and loyalty are both absent or empty, toughness playing no part;
    it is rendered with nothing inside exactly when power is there and
    toughness and loyalty are not; and its power and toughness line, when
    it has one, joins a power and a toughness that are both not empty. *)
Theorem statsRow_shape (card : Card) :
  (statsRow card = None <->
     truthy (power card) = false /\ truthy (loyalty card) = false)
  /\ (statsRow card = Some (mkStats None None) <->
        truthy (power card) = true
        /\ truthy (toughness card) = false
        /\ truthy (loyalty card) = false)
  /\ (forall st line,
        statsRow card = Some st ->
        powerToughness st = Some line ->
        exists p t,
          power card = Some p /\ toughness card = Some t
          /\ p <> "" /\ t <> "" /\ line = p ++ "/" ++ t).
Proof.
  unfold statsRow.
  destruct card as [n mc ty r sc sn tx p t l]. cbn [power toughness loyalty].
  destruct p as [p |], t as [t |], l as [l |]; cbn [Js.or truthy negb andb];
    split_tests; cbn [negb andb].
  all: split;
    [split; [intros H; try discriminate H; auto
            | intros [H1 H2]; try discriminate; auto] |].
  all: split;
    [split; [intros H; try discriminate H; auto
            | intros (H1 & H2 & H3); try discriminate; auto] |].
  all: intros st line H; try discriminate H; injection H as <-;
    cbn [powerToughness]; intros H; try discriminate H.
  all: injection H as <-; exists p, t; repeat split;
    try (apply String.eqb_neq; assumption).
Qed.

Lemma statsRow_shape_witness :
  exists p t,
    power (mkCard "Bear" Js.Null "Creature" common "SET" "Set" None
             (Some "2") (Some "0") None) = Some p
    /\ toughness (mkCard "Bear" Js.Null "Creature" common "SET" "Set" None
             (Some "2") (Some "0") None) = Some t
    /\ p <> "" /\ t <> "" /\ "2/0" = p ++ "/" ++ t.
Proof.
  eapply (proj2 (proj2 (statsRow_shape _))); reflexivity.
Defined.

End Component.

(** ** More on the image loader *)

Section ImageLoaderHistory.

Import CardImageViewer Spec.





(** A card without any image address, each candidate absent or empty, is
    not shown with the fallback at mount: the viewer renders the image
    element with the generic field as source, absent or empty as it is,
    under the skeleton. *)
Theorem mount_without_source (card : Card) :
  firstNonEmpty (candidates card) = None ->
  display (mount card) =
    ImageView true (imageUrl card) (name card ++ " card image")
      "rounded-lg shadow-lg transition-opacity duration-300 opacity-0"
  /\ (imageUrl card = None \/ imageUrl card = Some "").
Proof.
  intros H. split.
  - unfold display, mount, render. cbn.
    rewrite (selectImageUrl_no_candidate card H). reflexivity.
  - revert H. unfold candidates. cbn [firstNonEmpty].
    destruct (optionalChain card large) as [l |];
      [destruct (String.eqb l ""); [| discriminate] |];
      (destruct (optionalChain card normal) as [m |];
       [destruct (String.eqb m ""); [| discriminate] |]);
      (destruct (imageUrl card) as [g |]; [| auto];
       destruct (String.eqb_spec g ""); [subst; auto | discriminate]).
Qed.

Lemma mount_without_source_witness :
  display (mount (mkCard "Island" (Some (mkImageUrls (Some "") None)) None)) =
    ImageView true None ("Island" ++ " card image")
      "rounded-lg shadow-lg transition-opacity duration-300 opacity-0"
  /\ (@None string = None \/ @None string = Some "").
Proof.
  apply (mount_without_source
           (mkCard "Island" (Some (mkImageUrls (Some "") None)) None)).
  reflexivity.
Defined.

End ImageLoaderHistory.
